(** * RAG2: a retrieval-augmented-generation notebook

    The repository is one Jupyter notebook, [RAG2.ipynb].  Its code cells
    load a PDF, split the page texts into chunks, embed the chunks into a
    vector store, and run a read loop that answers questions with the
    three nearest chunks as context.

    What the notebook itself writes (the splitter configuration, the
    credential assignment, the rebuilt documents, [ask_question], the read
    loop) is embedded from its cells.  The splitter class, the vector
    store and the remote models are third-party services whose code is
    not in the repository; each is either an oracle or a model, of the
    contract the specification gives or, for the splitter, of the methods
    of the class, and every such definition says so. *)

From stdpp Require Import gmap strings list sorting.
From Stdlib Require Import Ascii ZArith Lia.

Local Open Scope Z_scope.
Local Open Scope nat_scope.

(** ** Python strings *)

(** A Python [str] is a sequence of code points; here a character is an
    [ascii], read as a code point below 256. *)
Abbreviation text := (list ascii).

Definition txt (s : string) : text := String.list_ascii_of_string s.

Definition nl : ascii := ascii_of_nat 10.

Module Py.

(** [str.isspace] on one character below 256. *)
Definition is_space (c : ascii) : bool :=
  let n := nat_of_ascii c in
  ((9 <=? n) && (n <=? 13)) || ((28 <=? n) && (n <=? 32))
  || (n =? 133) || (n =? 160).

(** [str.lower] on one character below 256: the ASCII capitals and the
    Latin-1 capitals (192..222 but the multiplication sign 215). *)
Definition lower_char (c : ascii) : ascii :=
  let n := nat_of_ascii c in
  if ((65 <=? n) && (n <=? 90))
     || ((192 <=? n) && (n <=? 222) && negb (n =? 215))
  then ascii_of_nat (n + 32) else c.

Definition lower (s : text) : text := lower_char <$> s.

Fixpoint lstrip (s : text) : text :=
  match s with
  | c :: s' => if is_space c then lstrip s' else s
  | [] => []
  end.

Definition rstrip (s : text) : text := reverse (lstrip (reverse s)).

(** [str.strip()] with no argument. *)
Definition strip (s : text) : text := rstrip (lstrip s).

(** [sep.join(parts)] *)
Fixpoint join (sep : text) (parts : list text) : text :=
  match parts with
  | [] => []
  | [p] => p
  | p :: ps => p ++ sep ++ join sep ps
  end.

End Py.

(** ** Documents *)

(** Modelled from the spec: the [Document] class of the document library
    is not in the repository.  The notebook reads and passes its
    [page_content]; the PDF loader attaches a metadata dictionary (source
    and page), and a document built from [page_content] alone has the
    empty dictionary. *)
Record Document := mkDocument {
  page_content : text;
  metadata : gmap string text
}.

(** [Document(page_content=s)] *)
Definition Document_of_text (s : text) : Document := mkDocument s ∅.

(** ** The chunker *)

(** The keyword arguments of the notebook's
    [RecursiveCharacterTextSplitter(...)] call; [length_function=len] is
    the list length. *)
Record RecursiveCharacterTextSplitter := mkSplitter {
  separators : list text;
  chunk_size : nat;
  chunk_overlap : nat;
  strip_whitespace : bool;
  keep_separator : bool
}.

Definition text_splitter : RecursiveCharacterTextSplitter :=
  {| separators := [txt ". "; [nl; nl]; txt " "];
     chunk_size := 85;
     chunk_overlap := 20;
     strip_whitespace := true;
     keep_separator := true |}.

Module Chunker.

(** [starts_with s t]: the text [t] begins with [s]. *)
Definition starts_with (s t : text) : bool :=
  bool_decide (take (length s) t = s).

(** [re.search(re.escape(s), t)]: the literal [s] occurs in [t]. *)
Fixpoint occurs (s t : text) : bool :=
  match t with
  | [] => bool_decide (s = [])
  | _ :: t' => starts_with s t || occurs s t'
  end.

(** [re.split(re.escape(s), t)] for a separator that is not empty: the
    stretches of [t] between the occurrences of [s], taken leftmost first
    and without overlap.  [skip] characters of the occurrence just found
    are still to be passed; [cur] is the stretch being read. *)
Fixpoint segments (s t : text) (skip : nat) (cur : text) : list text :=
  match t with
  | [] => [cur]
  | c :: t' =>
      match skip with
      | S k => segments s t' k cur
      | 0 =>
          if starts_with s t then cur :: segments s t' (length s - 1) []
          else segments s t' 0 (cur ++ [c])
      end
  end.

(** Modelled from the spec: the splitter class
    ([RecursiveCharacterTextSplitter] of the library the notebook imports)
    is not in the repository; section 4.1 gives its contract in a
    sentence, and the definitions below follow the methods of the class
    step by step.  This is [_split_text_with_regex]: with
    [keep_separator] every stretch but the first gets the separator back
    at its head; the empty separator splits into characters; empty
    pieces are dropped. *)
Definition _split_text_with_regex (t separator : text) (keep_separator : bool)
    : list text :=
  let splits :=
    match separator with
    | [] => (λ c, [c]) <$> t
    | _ =>
        match segments separator t 0 [] with
        | [] => []
        | seg0 :: segs =>
            if keep_separator then seg0 :: ((λ seg, separator ++ seg) <$> segs)
            else seg0 :: segs
        end
    end in
  filter (λ s, s ≠ []) splits.

(** Modelled from the spec: [_join_docs] of the splitter class, which is
    not in the repository: the pieces are joined, stripped when
    [strip_whitespace] is set, and an empty result gives no chunk. *)
Definition _join_docs (cfg : RecursiveCharacterTextSplitter) (docs : list text)
    (separator : text) : option text :=
  let joined := Py.join separator docs in
  let joined := if strip_whitespace cfg then Py.strip joined else joined in
  if decide (joined = []) then None else Some joined.

(** Modelled from the spec: the [while] loop of [_merge_splits] of the
    splitter class, which is not in the repository: pieces are dropped
    from the front of the current chunk while it is longer than the
    overlap, or while the next piece still does not fit.  [total] is the
    length of the current chunk joined, so the loop condition cannot hold
    of an empty chunk. *)
Fixpoint pop_while (cfg : RecursiveCharacterTextSplitter)
    (separator_len _len : nat) (current_doc : list text) (total : nat)
    : list text * nat :=
  match current_doc with
  | [] => ([], total)
  | d0 :: rest =>
      if (chunk_overlap cfg <? total)
         || ((chunk_size cfg <? total + _len + separator_len) && (0 <? total))
      then pop_while cfg separator_len _len rest
             (total - (length d0 + (if 1 <? length current_doc then separator_len else 0)))
      else (current_doc, total)
  end.

(** Modelled from the spec: the [for] loop of [_merge_splits] of the
    splitter class, which is not in the repository.  Pieces are added to
    the current chunk while they fit in [chunk_size]; when the next piece
    does not fit, the current chunk is emitted and its last pieces, at
    most [chunk_overlap] characters of them, start the next chunk. *)
Fixpoint merge_from (cfg : RecursiveCharacterTextSplitter) (separator : text)
    (splits docs current_doc : list text) (total : nat) : list text :=
  match splits with
  | [] => docs ++ option_list (_join_docs cfg current_doc separator)
  | d :: splits' =>
      let separator_len := length separator in
      let _len := length d in
      let '(docs, current_doc, total) :=
        if (chunk_size cfg <? total + _len
                                + (if 0 <? length current_doc then separator_len else 0))
           && (0 <? length current_doc)
        then
          let docs := docs ++ option_list (_join_docs cfg current_doc separator) in
          let '(current_doc, total) :=
            pop_while cfg separator_len _len current_doc total in
          (docs, current_doc, total)
        else (docs, current_doc, total) in
      let current_doc := current_doc ++ [d] in
      merge_from cfg separator splits' docs current_doc
        (total + _len + (if 1 <? length current_doc then separator_len else 0))
  end.

Definition _merge_splits (cfg : RecursiveCharacterTextSplitter)
    (splits : list text) (separator : text) : list text :=
  merge_from cfg separator splits [] [] 0.

(** Modelled from the spec: the [for s in splits] loop of [_split_text]
    of the splitter class, which is not in the repository.  Pieces
    shorter than [chunk_size] are collected and merged; a piece that is
    not shorter is split again with the remaining separators, and is
    emitted whole, as it is, when none remains. *)
Fixpoint split_loop (cfg : RecursiveCharacterTextSplitter) (separator : text)
    (again : option (text → list text)) (splits _good_splits : list text)
    : list text :=
  match splits with
  | [] =>
      match _good_splits with
      | [] => []
      | _ => _merge_splits cfg _good_splits separator
      end
  | s :: splits' =>
      if length s <? chunk_size cfg
      then split_loop cfg separator again splits' (_good_splits ++ [s])
      else
        match _good_splits with
        | [] => []
        | _ => _merge_splits cfg _good_splits separator
        end
        ++ match again with
           | None => [s]
           | Some split_again => split_again s
           end
        ++ split_loop cfg separator again splits' []
  end.

(** Modelled from the spec: [_split_text] of the splitter class, which is
    not in the repository.  The separator used is the first of the list
    that is empty or occurs in the text, the separators after it being
    kept for the pieces that are too long; when none occurs the last one
    is used, which leaves the text in one piece.  (The library fails on
    an empty separator list; the notebook passes three.) *)
Fixpoint _split_text (cfg : RecursiveCharacterTextSplitter) (t : text)
    (separators : list text) {struct separators} : list text :=
  match separators with
  | [] => split_loop cfg [] None (filter (λ s, s ≠ []) [t]) []
  | _s :: new_separators =>
      if decide (_s = []) then
        split_loop cfg [] None
          (_split_text_with_regex t [] (keep_separator cfg)) []
      else if occurs _s t then
        split_loop cfg (if keep_separator cfg then [] else _s)
          match new_separators with
          | [] => None
          | _ => Some (λ s, _split_text cfg s new_separators)
          end
          (_split_text_with_regex t _s (keep_separator cfg)) []
      else _split_text cfg t new_separators
  end.

(** [split_text] of the splitter class. *)
Definition split_text (cfg : RecursiveCharacterTextSplitter) (t : text) : list text :=
  _split_text cfg t (separators cfg).

(** Modelled from the spec: [split_documents] of the splitter class is
    not in the repository.  Every page is split on its own and each
    chunk keeps the metadata of its page. *)
Definition split_documents (cfg : RecursiveCharacterTextSplitter)
    (pages : list Document) : list Document :=
  pages ≫= (λ page, (λ c, mkDocument c (metadata page)) <$> split_text cfg (page_content page)).

(** The same splitter without [strip_whitespace]: its chunks are the
    chunks before stripping. *)
Definition unstripped (cfg : RecursiveCharacterTextSplitter)
    : RecursiveCharacterTextSplitter :=
  mkSplitter (separators cfg) (chunk_size cfg) (chunk_overlap cfg) false
    (keep_separator cfg).



End Chunker.

(** *** Chunks and the text they come from *)






(** ** The vector index *)

(** An embedding is a sequence of floats in the service; coordinates are
    integers here, which keeps distances and their order exact. *)
Abbreviation vector := (list Z).

(** Spec section 3, EmbeddingRecord: the stored text with its vector.  The
    text is kept as the document that was handed to the store. *)
Record EmbeddingRecord := mkRecord {
  document : Document;
  embedding : vector
}.

Module VectorIndex.

(** Squared Euclidean distance, one of the metrics section 4.3 names. *)
Fixpoint l2 (u v : vector) : Z :=
  match u, v with
  | x :: u', y :: v' => ((x - y) * (x - y) + l2 u' v')%Z
  | _, _ => 0%Z
  end.

(** [closer metric q a b]: record [a] is at most as far from [q] as [b]. *)
Definition closer (metric : vector → vector → Z) (q : vector)
    (a b : EmbeddingRecord) : Prop :=
  (metric q (embedding a) ≤ metric q (embedding b))%Z.

#[export] Instance closer_dec metric q a b : Decision (closer metric q a b).
Proof. unfold closer. apply _. Defined.

(** Modelled from the spec: the vector store is a third-party library
    that is not in the repository.  Section 4.3: "add(records) appends to
    an unordered backing store". *)
Definition add (records index : list EmbeddingRecord) : list EmbeddingRecord :=
  index ++ records.

(** Modelled from the spec: the vector store is not in the repository.
    Section 4.3: "query(vector, k) returns the k records with smallest
    distance"; section 3: "ordered ... by ascending distance to query
    vector".  The records are sorted by distance and the first [k] are
    returned. *)
Definition query (metric : vector → vector → Z) (index : list EmbeddingRecord)
    (q : vector) (k : nat) : list EmbeddingRecord :=
  take k (merge_sort (closer metric q) index).

End VectorIndex.

(** ** The notebook process *)

Inductive exn :=
| EOFError                (* input() at the end of the input *)
| IndexError              (* choices[0] of an empty list *)
| APIError (what : text). (* an error raised by a remote client *)

Inductive result (A : Type) :=
| Ok (a : A)
| Raise (e : exn).
Arguments Ok {A} a.
Arguments Raise {A} e.

(** One entry of the [messages] list of a chat request. *)
Record message := mkMessage {
  role : text;
  content : text
}.

(** What a [print] call writes; the decorated literals are kept as tags. *)
Inductive output :=
| Extracted (n : nat)
| Stored
| Retrieved (docs : list text)
| Goodbye
| ChatbotResponse (response : text).

(** What the process does that can be seen from outside, in order. *)
Inductive event :=
| Embed (model : text) (s : text)
| ChatCreate (model : text) (messages : list message)
| Input (line : text)
| Print (o : output).

(** The events of the terminal: what was typed and what was printed. *)
Definition on_terminal (ev : event) : bool :=
  match ev with
  | Input _ | Print _ => true
  | Embed _ _ | ChatCreate _ _ => false
  end.

(** The remote services as oracles.  Each answer may depend on everything
    that happened before the call, so a service can fail once and succeed
    later.  A chat answer is the list of the message contents of its
    choices. *)
Record Services := mkServices {
  metric : vector → vector → Z;
  embed : list event → text → text → result vector;
  chat : list event → text → list message → result (list text)
}.

(** The module-level variables of the notebook that one cell assigns and
    a later cell or the loop reads, the process environment and the
    events so far.  [vector_store] is the one collection of the process.
    The variables [user_query] and [response] of the loop, assigned anew
    at each turn, are passed as values and are not fields. *)
Record Process := mkProcess {
  environ : gmap string text;
  openai_api_key : option text;
  documents : list Document;
  chunks : list Document;
  vector_store : list EmbeddingRecord;
  trace : list event
}.

Definition M (A : Type) : Type := Process → result A * Process.

#[export] Instance M_ret : MRet M := λ A a p, (Ok a, p).
#[export] Instance M_bind : MBind M := λ A B f m p,
  match m p with
  | (Ok a, p') => f a p'
  | (Raise e, p') => (Raise e, p')
  end.

Definition raise {A} (e : exn) : M A := λ p, (Raise e, p).

Definition set_environ (k : string) (v : text) : M unit := λ p,
  (Ok (), mkProcess (<[k := v]> (environ p)) (openai_api_key p) (documents p)
            (chunks p) (vector_store p) (trace p)).

Definition set_openai_api_key (v : option text) : M unit := λ p,
  (Ok (), mkProcess (environ p) v (documents p) (chunks p) (vector_store p) (trace p)).

Definition set_documents (ds : list Document) : M unit := λ p,
  (Ok (), mkProcess (environ p) (openai_api_key p) ds (chunks p) (vector_store p) (trace p)).

Definition set_chunks (cs : list Document) : M unit := λ p,
  (Ok (), mkProcess (environ p) (openai_api_key p) (documents p) cs (vector_store p) (trace p)).

Definition set_vector_store (st : list EmbeddingRecord) : M unit := λ p,
  (Ok (), mkProcess (environ p) (openai_api_key p) (documents p) (chunks p) st (trace p)).

Definition log (ev : event) (p : Process) : Process :=
  mkProcess (environ p) (openai_api_key p) (documents p) (chunks p)
    (vector_store p) (trace p ++ [ev]).

Definition emit (ev : event) : M unit := λ p, (Ok (), log ev p).

(** The process after the events [evs], in order. *)
Definition log_all (evs : list event) (p : Process) : Process :=
  foldl (λ p ev, log ev p) p evs.

Definition print (o : output) : M unit := emit (Print o).

Definition get {A} (f : Process → A) : M A := λ p, (Ok (f p), p).

(** [os.getenv(k)] *)
Definition os_getenv (k : string) : M (option text) := get (λ p, environ p !! k).

Definition OPENAI_API_KEY : string := "OPENAI_API_KEY".

(** [OpenAIEmbeddings(model="text-embedding-3-small")] *)
Definition embedding_model : text := txt "text-embedding-3-small".

(** The variable [query] of cells 7 and 9. *)
Definition query0 : text := txt "What is Retrieval-Augmented Generation (RAG)?".

Definition system_content : text :=
  txt "You are an AI that answers questions based on retrieved documents.".

(** The f-string of [ask_question], line by line. *)
Definition prompt_of (context query : text) : text :=
  [nl]
  ++ txt "    You are an AI assistant. Answer the question using the retrieved context below." ++ [nl]
  ++ txt "    " ++ [nl]
  ++ txt "    Context:" ++ [nl]
  ++ txt "    " ++ context ++ [nl]
  ++ txt "    " ++ [nl]
  ++ txt "    Question: " ++ query ++ [nl]
  ++ txt "    " ++ [nl]
  ++ txt "    Answer:" ++ [nl]
  ++ txt "    ".

(** [[Document(page_content=chunk.page_content) for chunk in chunks]] *)
Definition rebuild (chunks : list Document) : list Document :=
  (λ chunk, Document_of_text (page_content chunk)) <$> chunks.

(** What the loop body tells the loop: [Break] for [break], [Continue] for
    falling off the end of the body. *)
Inductive control := Break | Continue.

Section Notebook.
Variable S : Services.

(** A call of the embedding model: logged, then answered by the oracle. *)
Definition embed_text (s : text) : M vector := λ p,
  (embed S (trace p) embedding_model s, log (Embed embedding_model s) p).

(** [client.chat.completions.create(model=..., messages=...)] *)
Definition chat_completions_create (model : text) (messages : list message)
    : M (list text) := λ p,
  (chat S (trace p) model messages, log (ChatCreate model messages) p).

(** Modelled from the spec: the embedding of the documents handed to the
    store is not in the repository.  Section 4.2: every text is sent to
    the embedder; section 3: the record is the text with its vector. *)
Fixpoint embed_documents (docs : list Document) : M (list EmbeddingRecord) :=
  match docs with
  | [] => mret []
  | d :: docs' =>
      v ← embed_text (page_content d);
      records ← embed_documents docs';
      mret (mkRecord d v :: records)
  end.

(** Modelled from the spec: [Chroma.from_documents] is not in the
    repository.  Section 4.3: the records are added to the backing store;
    section 5: the process has a single index, so what cell 9 stores is
    appended to what cell 5 stored (in the recorded output of cell 9 the
    nearest chunk is listed twice). *)
Definition from_documents (docs : list Document) : M (list EmbeddingRecord) :=
  records ← embed_documents docs;
  store ← get vector_store;
  mret (VectorIndex.add records store).

(** Modelled from the spec: [similarity_search] of the vector store is
    not in the repository.  The query text is embedded and the store is
    queried with the vector (section 4.3). *)
Definition similarity_search (query : text) (k : nat) : M (list Document) :=
  v ← embed_text query;
  store ← get vector_store;
  mret (document <$> VectorIndex.query (metric S) store v k).

Definition ask_question (query : text) : M text :=
  retrieved_docs ← similarity_search query 3;
  let context := Py.join [nl; nl] (page_content <$> retrieved_docs) in
  let prompt := prompt_of context query in
  response ← chat_completions_create (txt "gpt-4")
               [mkMessage (txt "system") system_content;
                mkMessage (txt "user") prompt];
  match response with
  | c :: _ => mret c
  | [] => raise IndexError
  end.

(** The body of [while True:] for the line that [input] returned. *)
Definition turn (user_query : text) : M control :=
  emit (Input user_query);;
  if decide (Py.lower user_query = txt "exit") then
    print Goodbye;; mret Break
  else
    response ← ask_question user_query;
    print (ChatbotResponse response);;
    mret Continue.

(** The read loop over the lines the terminal will deliver. *)
Fixpoint chat_loop (stdin : list text) : M unit :=
  match stdin with
  | [] => raise EOFError
  | user_query :: stdin' =>
      c ← turn user_query;
      match c with
      | Break => mret ()
      | Continue => chat_loop stdin'
      end
  end.

(** Cell 3; [pages] is what the PDF loader returned. *)
Definition cell3 (pages : list Document) : M unit :=
  set_documents pages;;
  documents ← get documents;
  set_chunks (Chunker.split_documents text_splitter documents);;
  chunks ← get chunks;
  print (Extracted (length chunks)).

(** Lines 150 and 153 of cell 5, repeated as lines 340 and 343 of cell 9:
    the documents are rebuilt from the chunk texts and handed to the
    vector store. *)
Definition store_chunks : M unit :=
  chunks ← get chunks;
  set_documents (rebuild chunks);;
  documents ← get documents;
  store ← from_documents documents;
  set_vector_store store.

Definition cell5 : M unit :=
  set_environ OPENAI_API_KEY [];;
  store_chunks;;
  print Stored.

Definition cell7 : M unit :=
  retrieved_docs ← similarity_search query0 3;
  print (Retrieved (page_content <$> retrieved_docs)).

Definition cell9 (stdin : list text) : M unit :=
  key ← os_getenv OPENAI_API_KEY;
  set_openai_api_key key;;
  store_chunks;;
  print Stored;;
  retrieved_docs ← similarity_search query0 3;
  print (Retrieved (page_content <$> retrieved_docs));;
  chat_loop stdin.

Definition notebook (pages : list Document) (stdin : list text) : M unit :=
  cell3 pages;; cell5;; cell7;; cell9 stdin.

(** The [messages] argument of the chat request for a query whose
    embedding is [v], against the store of [p]. *)
Definition request_messages (p : Process) (query : text) (v : vector)
    : list message :=
  let retrieved_docs :=
    document <$> VectorIndex.query (metric S) (vector_store p) v 3 in
  let context := Py.join [nl; nl] (page_content <$> retrieved_docs) in
  [mkMessage (txt "system") system_content;
   mkMessage (txt "user") (prompt_of context query)].

(** [remote_failure p query e calls]: in state [p], answering [query]
    makes the remote calls [calls], the last of which raises [e]. *)
Inductive remote_failure (p : Process) (query : text) : exn → list event → Prop :=
| embedding_fails e :
    embed S (trace p) embedding_model query = Raise e →
    remote_failure p query e [Embed embedding_model query]
| completion_fails v e :
    embed S (trace p) embedding_model query = Ok v →
    chat S (trace p ++ [Embed embedding_model query]) (txt "gpt-4")
      (request_messages p query v) = Raise e →
    remote_failure p query e
      [Embed embedding_model query;
       ChatCreate (txt "gpt-4") (request_messages p query v)].

End Notebook.

(** A process before the first cell, with the environment of the caller. *)
Definition fresh (env : gmap string text) : Process :=
  mkProcess env None [] [] [] [].

(** [preserves f m]: running [m] leaves the component [f] of the process
    as it was, whether [m] returns or raises. *)
Definition preserves {A B : Type} (f : Process → B) (m : M A) : Prop :=
  ∀ p, f (snd (m p)) = f p.

(** ** Example data *)

(** 64 letters, a space, 25 letters: two words that do not fit into one
    chunk. *)
Definition boundary_text : text :=
  repeat "a"%char 64 ++ txt " " ++ repeat "b"%char 25.

(** A word of 100 letters, a space, a word of 10 letters. *)
Definition long_word_text : text :=
  repeat "a"%char 100 ++ txt " " ++ repeat "b"%char 10.

(** Twelve words of nine letters, with a space between them. *)
Definition nine_letter_words : text :=
  Py.join (txt " ") ((λ c, repeat c 9) <$> txt "abcdefghijkl").

(** Two stored records. *)
Definition two_records : list EmbeddingRecord :=
  [mkRecord (Document_of_text (txt "far")) [5%Z; 5%Z];
   mkRecord (Document_of_text (txt "near")) [1%Z; 0%Z]].

(** Services that always answer: the embedding of a text is its length,
    the chat model has one choice. *)
Definition steady : Services :=
  mkServices VectorIndex.l2
    (λ _ _ s, Ok [Z.of_nat (length s)])
    (λ _ _ _, Ok [txt "fine"]).

(** An embedding service that is down. *)
Definition offline : Services :=
  mkServices VectorIndex.l2
    (λ _ _ _, Raise (APIError (txt "connection")))
    (λ _ _ _, Ok [txt "fine"]).

(** A chat service that rejects every request. *)
Definition throttled : Services :=
  mkServices VectorIndex.l2
    (λ _ _ s, Ok [Z.of_nat (length s)])
    (λ _ _ _, Raise (APIError (txt "rate limit"))).

(** A process whose store holds [two_records]. *)
Definition indexed : Process :=
  mkProcess ∅ None [] [] two_records [].

(** A PDF page as the loader returns it, with its source and page number. *)
Definition page0 : Document :=
  mkDocument (txt "Retrieval augments generation.")
    {[ "source" := txt "paper.pdf"; "page" := txt "0" ]}.

(** A process that has run cell 3 on [page0]. *)
Definition chunked : Process :=
  mkProcess ∅ None [page0] (Chunker.split_documents text_splitter [page0]) [] [].

(** The environment the notebook is started in when the caller has
    exported a key. *)
Definition caller_environ : gmap string text :=
  {[ OPENAI_API_KEY := txt "sk-caller"; "HOME" := txt "/home/user" ]}.

Ltac run_M :=
  unfold mbind, M_bind, mret, M_ret, raise, emit, print, get,
    embed_text, chat_completions_create; simpl.

(** ** Readings of a trace *)

(** The lines typed at the prompt, in order. *)
Definition inputs (tr : list event) : list text :=
  omap (λ ev, match ev with Input line => Some line | _ => None end) tr.

(** What was printed, in order. *)
Definition printed (tr : list event) : list output :=
  omap (λ ev, match ev with Print o => Some o | _ => None end) tr.

(** The texts sent to the embedding model, in order. *)
Definition embedded (tr : list event) : list text :=
  omap (λ ev, match ev with Embed _ s => Some s | _ => None end) tr.

(** The message lists sent to the chat model, in order. *)
Definition chat_requests (tr : list event) : list (list message) :=
  omap (λ ev, match ev with ChatCreate _ ms => Some ms | _ => None end) tr.

(** Services whose every call is answered, the chat model with at least
    one choice. *)
Definition reliable (S : Services) : Prop :=
  (∀ h m s, ∃ v, embed S h m s = Ok v)
  ∧ (∀ h m ms, ∃ c cs, chat S h m ms = Ok (c :: cs)).

(** The text of the template of [ask_question] between its two holes. *)
Definition question_header : text :=
  [nl] ++ txt "    " ++ [nl] ++ txt "    Question: ".

(** A chat service that answers without a choice. *)
Definition speechless : Services :=
  mkServices VectorIndex.l2
    (λ _ _ s, Ok [Z.of_nat (length s)])
    (λ _ _ _, Ok []).

(** ** Facts about the chunker *)

Lemma join_nil (docs : list text) : Py.join [] docs = concat docs.
Proof.
  induction docs as [|p [|q docs] IH]; simpl in *; [done| |].
  - by rewrite app_nil_r.
  - by rewrite IH.
Qed.

Lemma strip_length (s : text) : length (Py.strip s) ≤ length s.
Proof.
  assert (∀ u, length (Py.lstrip u) ≤ length u) as Hl.
  { induction u as [|c u IHu]; simpl; [done|].
    destruct (Py.is_space c); simpl; lia. }
  unfold Py.strip, Py.rstrip.
  rewrite length_reverse.
  etrans; [apply Hl|]. rewrite length_reverse. apply Hl.
Qed.

Section Segments.
Import Chunker.



End Segments.

Section Pieces.
Import Chunker.



Lemma split_text_with_regex_nonempty (t separator : text) (keep : bool) :
  Forall (λ s, s ≠ []) (_split_text_with_regex t separator keep).
Proof.
  unfold _split_text_with_regex. apply Forall_forall.
  by intros s [Hs _]%list_elem_of_filter.
Qed.

Lemma segments_single (c : ascii) (t cur : text) :
  c ∉ cur → Forall (λ seg, c ∉ seg) (segments [c] t 0 cur).
Proof.
  revert cur. induction t as [|x t IH]; intros cur Hcur.
  - by repeat constructor.
  - cbn [segments]. unfold starts_with. simpl. case_bool_decide as Hx.
    + constructor; [done|]. apply IH. set_solver.
    + apply IH. intros [?| ->%list_elem_of_singleton]%elem_of_app; [done|].
      by apply Hx.
Qed.

(** A piece cut off at a one-character separator holds that character at
    its head at most. *)
Lemma pieces_single (c : ascii) (t p : text) :
  p ∈ _split_text_with_regex t [c] true → c ∉ drop 1 p.
Proof.
  unfold _split_text_with_regex. intros [_ Hp]%list_elem_of_filter.
  pose proof (segments_single c t [] ltac:(set_solver)) as Hsegs.
  destruct (segments [c] t 0 []) as [|seg0 segs]; [set_solver|].
  apply Forall_cons in Hsegs as [H0 Hsegs].
  apply elem_of_cons in Hp as [->|(seg & -> & Hseg)%list_elem_of_fmap].
  - intros Hin. apply H0. by eapply subseteq_drop.
  - simpl. rewrite drop_0. rewrite Forall_forall in Hsegs. by apply Hsegs.
Qed.

Lemma occurs_single (c : ascii) (t : text) :
  occurs [c] t = false → c ∉ t.
Proof.
  induction t as [|x t IH]; simpl; [set_solver|].
  unfold starts_with. simpl.
  intros [Hx Ht]%orb_false_elim. apply bool_decide_eq_false in Hx.
  intros [->|Hin]%elem_of_cons; [done|]. by apply IH.
Qed.

End Pieces.

Section Tilings.
Context (ov : nat).





End Tilings.


Section Merge.
Import Chunker.
Variable cfg : RecursiveCharacterTextSplitter.

Lemma join_docs_length (docs : list text) (x : text) :
  _join_docs cfg docs [] = Some x → length x ≤ length (concat docs).
Proof.
  unfold _join_docs. rewrite join_nil. case_decide; [done|]. intros [= <-].
  destruct (strip_whitespace cfg); [apply strip_length|done].
Qed.

(** What the [while] loop leaves: the last pieces of the chunk, no longer
    than the overlap, with which the next piece fits. *)
Lemma pop_while_spec (_len : nat) (current_doc : list text) (total : nat)
    (current_doc' : list text) (total' : nat) :
  Forall (λ d, d ≠ []) current_doc →
  total = length (concat current_doc) →
  pop_while cfg 0 _len current_doc total = (current_doc', total') →
  current_doc' `suffix_of` current_doc
  ∧ total' = length (concat current_doc')
  ∧ total' ≤ chunk_overlap cfg
  ∧ (current_doc' = [] ∨ total' + _len ≤ chunk_size cfg).
Proof.
  revert total. induction current_doc as [|d0 rest IH]; intros total Hne Htotal; simpl.
  - intros [= <- <-]. subst total. simpl. repeat split; [done|lia|by left].
  - apply Forall_cons in Hne as [Hd0 Hne].
    rewrite concat_cons, length_app in Htotal.
    assert (0 < length d0) by (destruct d0; [done|simpl; lia]).
    destruct ((chunk_overlap cfg <? total)
              || (chunk_size cfg <? total + _len + 0) && (0 <? total)) eqn:Hcond.
    + intros Hpop. apply IH in Hpop as (Hsuf & ? & ? & ?); [|done|].
      * repeat split; try done. by apply suffix_cons_r.
      * destruct (1 <? S (length rest)); lia.
    + intros [= <- <-]. apply orb_false_elim in Hcond as [Hov Hfit].
      apply Nat.ltb_ge in Hov. apply andb_false_elim in Hfit as [Hfit|Hfit].
      * apply Nat.ltb_ge in Hfit. rewrite concat_cons, length_app.
        repeat split; [done|lia|lia|right; lia].
      * apply Nat.ltb_ge in Hfit. lia.
Qed.

(** Merged out of pieces shorter than the chunk size, no chunk is longer
    than the chunk size. *)
Lemma merge_from_size (splits docs current_doc : list text) (total : nat) :
  Forall (λ d, d ≠ [] ∧ length d < chunk_size cfg) splits →
  Forall (λ d, d ≠ []) current_doc →
  total = length (concat current_doc) →
  total ≤ chunk_size cfg →
  Forall (λ c, length c ≤ chunk_size cfg) docs →
  Forall (λ c, length c ≤ chunk_size cfg)
    (merge_from cfg [] splits docs current_doc total).
Proof.
  revert docs current_doc total.
  induction splits as [|d splits IH]; intros docs cur total Hsplits Hcur Htotal Hsize Hdocs.
  - simpl. apply Forall_app. split; [done|].
    destruct (_join_docs cfg cur []) as [x|] eqn:Hjoin; [|constructor].
    apply join_docs_length in Hjoin. repeat constructor. lia.
  - apply Forall_cons in Hsplits as [[Hd Hlen] Hsplits]. cbn [merge_from].
    change (length (@nil ascii)) with 0.
    assert (∀ b : bool, (if b then 0 else 0) = 0) as Hsep by (by intros []).
    rewrite !Hsep, !Nat.add_0_r.
    destruct ((chunk_size cfg <? total + length d) && (0 <? length cur)) eqn:Hflush.
    + destruct (pop_while cfg 0 (length d) cur total) as [cur' total'] eqn:Hpop.
      rewrite !Hsep, !Nat.add_0_r.
      apply pop_while_spec in Hpop as (Hsuf & Htotal' & Hov & Hfit); [|done|done].
      apply IH; try done.
      * apply Forall_app. split; [|by repeat constructor].
        destruct Hsuf as [k ->]. by apply Forall_app in Hcur as [_ ?].
      * rewrite concat_app, length_app. simpl. rewrite app_nil_r. lia.
      * destruct Hfit as [->|Hfit]; [simpl in Htotal'|]; lia.
      * apply Forall_app. split; [done|].
        destruct (_join_docs cfg cur []) as [x|] eqn:Hjoin; [|constructor].
        apply join_docs_length in Hjoin. repeat constructor. lia.
    + cbv beta iota zeta. rewrite ?Hsep, ?Nat.add_0_r. apply IH; try done.
      * apply Forall_app. split; [done|by repeat constructor].
      * rewrite concat_app, length_app. simpl. rewrite app_nil_r. lia.
      * apply andb_false_elim in Hflush as [Hfit|Hempty].
        -- apply Nat.ltb_ge in Hfit. lia.
        -- apply Nat.ltb_ge in Hempty. destruct cur; [simpl in *; lia|simpl in Hempty; lia].
Qed.


End Merge.

Section Unstripped.
Import Chunker.
Variable cfg : RecursiveCharacterTextSplitter.







End Unstripped.

Section MergeTiling.
Import Chunker.
Variable cfg : RecursiveCharacterTextSplitter.
Hypothesis Hraw : strip_whitespace cfg = false.





End MergeTiling.

Section SplitText.
Import Chunker.
Variable cfg : RecursiveCharacterTextSplitter.
Hypothesis Hkeep : keep_separator cfg = true.







Lemma flush_size (good : list text) :
  Forall (λ d, d ≠ [] ∧ length d < chunk_size cfg) good →
  Forall (λ c, length c ≤ chunk_size cfg)
    match good with [] => [] | _ => _merge_splits cfg good [] end.
Proof.
  intros Hgood. destruct good as [|g good]; [constructor|].
  apply merge_from_size; try done. simpl. lia.
Qed.

(** A chunk longer than the chunk size is a piece that no separator of the
    list cuts any further. *)
Lemma split_loop_size (P : text → Prop) (again : option (text → list text))
    (splits good : list text) :
  match again with
  | None => Forall P splits
  | Some f => ∀ s, Forall (λ c, length c ≤ chunk_size cfg ∨ P c) (f s)
  end →
  Forall (λ d, d ≠ []) splits →
  Forall (λ d, d ≠ [] ∧ length d < chunk_size cfg) good →
  Forall (λ c, length c ≤ chunk_size cfg ∨ P c)
    (split_loop cfg [] again splits good).
Proof.
  intros Hagain. revert good.
  induction splits as [|s splits IH]; intros good Hsplits Hgood.
  - simpl. eapply Forall_impl; [by apply flush_size|]. intros c Hc. by left.
  - apply Forall_cons in Hsplits as [Hs Hsplits]. cbn [split_loop].
    destruct (length s <? chunk_size cfg) eqn:Hlen.
    + apply Nat.ltb_lt in Hlen. apply IH.
      * destruct again; [done|]. by apply Forall_cons in Hagain as [_ ?].
      * done.
      * apply Forall_app. split; [done|]. by repeat constructor.
    + apply Forall_app. split.
      { eapply Forall_impl; [by apply flush_size|]. intros c Hc. by left. }
      apply Forall_app. split.
      * destruct again as [f|]; [apply Hagain|].
        apply Forall_cons in Hagain as [HP _]. apply Forall_cons. split; [by right|constructor].
      * apply IH; [|done|constructor].
        destruct again; [done|]. by apply Forall_cons in Hagain as [_ ?].
Qed.

Lemma split_text_size (c : ascii) (separators : list text) (t : text) :
  Forall (λ s, s ≠ []) separators →
  match separators with [] => c ∉ t | _ => last separators = Some [c] end →
  Forall (λ x, length x ≤ chunk_size cfg ∨ c ∉ drop 1 x)
    (_split_text cfg t separators).
Proof.
  revert t. induction separators as [|_s new_separators IH]; intros t Hseps Hlast.
  - cbn [_split_text].
    apply (split_loop_size (λ x, c ∉ drop 1 x) None); [| |constructor].
    + apply Forall_forall. intros x [_ ->%list_elem_of_singleton]%list_elem_of_filter.
      intros Hin. apply Hlast. by eapply subseteq_drop.
    + apply Forall_forall. by intros x [? _]%list_elem_of_filter.
  - apply Forall_cons in Hseps as [Hs Hseps]. cbn [_split_text].
    rewrite Hkeep, decide_False by done.
    destruct (occurs _s t) eqn:Hocc.
    + apply split_loop_size; [| |constructor].
      * destruct new_separators as [|s' seps'] eqn:E.
        -- simpl in Hlast. injection Hlast as ->.
           apply Forall_forall. intros x Hx. by apply pieces_single in Hx.
        -- intros s. apply IH; [done|]. by rewrite last_cons_cons in Hlast.
      * apply split_text_with_regex_nonempty.
    + apply IH; [done|]. destruct new_separators as [|s' seps'].
      * simpl in Hlast. injection Hlast as ->. by apply occurs_single.
      * by rewrite last_cons_cons in Hlast.
Qed.

End SplitText.



Example leading_space_stripped :
  Chunker.split_text text_splitter (txt " a") = [txt "a"].
Proof. vm_compute. reflexivity. Qed.

(** The text of the scenario of section 8 of the specification, with
    chunk size 5 and overlap 2: a word with its space is as long as the
    chunk size, so it is a chunk of its own and is not stripped. *)
Example spec_scenario_chunks :
  Chunker.split_text (mkSplitter (separators text_splitter) 5 2 true true)
    (txt "AAAA BBBB CCCC")
  = [txt "AAAA"; txt " BBBB"; txt " CCCC"].
Proof. vm_compute. reflexivity. Qed.

(** A piece longer than the overlap is not carried over: the second
    chunk begins where the first ended. *)
Example boundary_chunks :
  Chunker.split_text (Chunker.unstripped text_splitter) boundary_text
    = [repeat "a"%char 64; txt " " ++ repeat "b"%char 25]
  ∧ Chunker.split_text text_splitter boundary_text
    = [repeat "a"%char 64; repeat "b"%char 25].
Proof. split; vm_compute; reflexivity. Qed.

(** No separator of the notebook's list cuts a word. *)
Example long_word_chunks :
  Chunker.split_text text_splitter long_word_text
    = [repeat "a"%char 100; repeat "b"%char 10].
Proof. vm_compute. reflexivity. Qed.

(** Two words with their spaces are 20 characters: they are carried
    over, and stripping takes the first space from the second chunk. *)
Example nine_letter_chunks :
  Chunker.split_text (Chunker.unstripped text_splitter) nine_letter_words
    = [take 79 nine_letter_words; drop 59 nine_letter_words]
  ∧ Chunker.split_text text_splitter nine_letter_words
    = [take 79 nine_letter_words; drop 60 nine_letter_words].
Proof. split; vm_compute; reflexivity. Qed.



(** C2, as stated, fails: the first of the two chunks of a word of 100
    letters followed by a second word has 100 characters. *)
Lemma C2_counterexample :
  ¬ Forall (λ c, length c ≤ 85)
      (removelast (Chunker.split_text text_splitter long_word_text)).
Proof.
  rewrite (Forall_lookup _ _). intros H. specialize (H 0 _ eq_refl).
  vm_compute in H. lia.
Qed.

(** C2, amended: for every document text, every chunk, the last one
    included, has at most 85 characters unless it is a piece that the
    last separator of the notebook's list, the space, does not cut: a
    chunk of more than 85 characters has no space after its first
    character. *)
Theorem C2_chunk_size_or_word (t : text) :
  Forall (λ c, length c ≤ 85 ∨ " "%char ∉ drop 1 c)
    (Chunker.split_text text_splitter t).
Proof.
  apply (split_text_size text_splitter eq_refl " "%char); [|done].
  repeat constructor; discriminate.
Qed.




(** ** Facts about the vector index *)

Section IndexFacts.
Import VectorIndex.
Variable metric : vector → vector → Z.
Variable q : vector.

#[local] Instance closer_trans : Transitive (closer metric q).
Proof. unfold closer. intros a b c. lia. Qed.

#[local] Instance closer_total : Total (closer metric q).
Proof. unfold closer. intros a b. lia. Qed.

Lemma query_sorted index k :
  StronglySorted (closer metric q) (query metric index q k).
Proof.
  unfold query.
  pose proof (StronglySorted_merge_sort (closer metric q) index) as Hs.
  rewrite <-(take_drop k (merge_sort _ index)) in Hs.
  by apply StronglySorted_app_1_l in Hs.
Qed.

Lemma query_length index k :
  length (query metric index q k) = k `min` length index.
Proof.
  unfold query.
  by rewrite length_take, (Permutation_length (merge_sort_Permutation _ index)).
Qed.

(** The records returned and the records left out make up the index,
    and nothing left out is closer than anything returned. *)
Lemma query_nearest index k :
  ∃ rest, query metric index q k ++ rest ≡ₚ index
          ∧ ∀ a b, a ∈ query metric index q k → b ∈ rest → closer metric q a b.
Proof.
  exists (drop k (merge_sort (closer metric q) index)). unfold query. split.
  - by rewrite take_drop, merge_sort_Permutation.
  - intros a b Ha Hb.
    eapply StronglySorted_app_1_elem_of; [|exact Ha|exact Hb].
    rewrite take_drop. apply StronglySorted_merge_sort; apply _.
Qed.

Lemma query_elem_of index k r :
  r ∈ query metric index q k → r ∈ index.
Proof.
  unfold query. intros Hr%subseteq_take.
  by rewrite merge_sort_Permutation in Hr.
Qed.

End IndexFacts.

(** Section 8: a query vector equal to a stored vector gets that record
    first, at distance zero. *)
Example identical_vector_first :
  VectorIndex.query VectorIndex.l2 two_records [1%Z; 0%Z] 1
    = [mkRecord (Document_of_text (txt "near")) [1%Z; 0%Z]]
  ∧ VectorIndex.l2 [1%Z; 0%Z] [1%Z; 0%Z] = 0%Z.
Proof. split; vm_compute; reflexivity. Qed.

(** C4, as stated, fails: an index that holds two records returns two
    records for k = 3. *)
Lemma C4_counterexample :
  length (VectorIndex.query VectorIndex.l2 two_records [0%Z; 0%Z] 3) ≠ 3.
Proof. vm_compute. discriminate. Qed.

(** C4, amended: for every index state, query vector and k, retrieval
    returns records of the index sorted by ascending distance to the
    query vector; their number is the smaller of k and the number of
    stored records, and no record left out is closer than a returned
    one. *)
Theorem C4_retrieval_sorted (metric : vector → vector → Z)
    (index : list EmbeddingRecord) (q : vector) (k : nat) :
  let found := VectorIndex.query metric index q k in
  StronglySorted (VectorIndex.closer metric q) found
  ∧ length found = k `min` length index
  ∧ ∃ rest, found ++ rest ≡ₚ index
            ∧ ∀ a b, a ∈ found → b ∈ rest → VectorIndex.closer metric q a b.
Proof.
  simpl. split; [apply query_sorted|]. split; [apply query_length|].
  apply query_nearest.
Qed.

(** ** Facts about the notebook process *)

Lemma bind_run {A B : Type} (m : M A) (k : A → M B) (p : Process) :
  (m ≫= k) p = match m p with
               | (Ok a, p') => k a p'
               | (Raise e, p') => (Raise e, p')
               end.
Proof. done. Qed.

Lemma log_all_trace (evs : list event) (p : Process) :
  trace (log_all evs p) = trace p ++ evs.
Proof.
  revert p. induction evs as [|ev evs IH]; intros p; simpl.
  - by rewrite app_nil_r.
  - change (log_all (ev :: evs) p) with (log_all evs (log ev p)).
    rewrite IH. simpl. by rewrite <-app_assoc.
Qed.

Lemma similarity_search_run (S : Services) (query : text) (k : nat) (p : Process) :
  similarity_search S query k p =
    (match embed S (trace p) embedding_model query with
     | Ok v => Ok (document <$> VectorIndex.query (metric S) (vector_store p) v k)
     | Raise e => Raise e
     end, log (Embed embedding_model query) p).
Proof.
  unfold similarity_search. run_M.
  by destruct (embed S (trace p) embedding_model query).
Qed.


Lemma ask_question_run (S : Services) (query : text) (p : Process) :
  ask_question S query p =
    match embed S (trace p) embedding_model query with
    | Raise e => (Raise e, log (Embed embedding_model query) p)
    | Ok v =>
        let calls := [Embed embedding_model query;
                      ChatCreate (txt "gpt-4") (request_messages S p query v)] in
        match chat S (trace p ++ [Embed embedding_model query]) (txt "gpt-4")
                (request_messages S p query v) with
        | Raise e => (Raise e, log_all calls p)
        | Ok (c :: _) => (Ok c, log_all calls p)
        | Ok [] => (Raise IndexError, log_all calls p)
        end
    end.
Proof.
  unfold ask_question. unfold mbind at 1. unfold M_bind at 1.
  rewrite similarity_search_run.
  destruct (embed S (trace p) embedding_model query) as [v|e]; [|done].
  run_M. unfold request_messages.
  by destruct (chat S _ _ _) as [[|c cs]|e].
Qed.



Lemma turn_run (S : Services) (line : text) (p : Process) :
  turn S line p =
    if decide (Py.lower line = txt "exit")
    then (Ok Break, log_all [Input line; Print Goodbye] p)
    else match ask_question S line (log (Input line) p) with
         | (Ok response, p') => (Ok Continue, log (Print (ChatbotResponse response)) p')
         | (Raise e, p') => (Raise e, p')
         end.
Proof.
  unfold turn. run_M. case_decide; [done|].
  by destruct (ask_question S line (log (Input line) p)) as [[response|e] p'].
Qed.

Lemma lower_exit : Py.lower (txt "exit") = txt "exit".
Proof. reflexivity. Qed.

Lemma lower_char_cases (c : ascii) :
  (Py.lower_char c = "e"%char ↔ c = "e"%char ∨ c = "E"%char)
  ∧ (Py.lower_char c = "x"%char ↔ c = "x"%char ∨ c = "X"%char)
  ∧ (Py.lower_char c = "i"%char ↔ c = "i"%char ∨ c = "I"%char)
  ∧ (Py.lower_char c = "t"%char ↔ c = "t"%char ∨ c = "T"%char).
Proof.
  destruct c as [[] [] [] [] [] [] [] []]; vm_compute;
    repeat split; intros; try discriminate; intuition (discriminate || auto).
Qed.

(** The lines that compare equal to "exit" are its sixteen spellings in
    upper and lower case. *)
Lemma lower_exit_iff (line : text) :
  Py.lower line = txt "exit" ↔
  ∃ c1 c2 c3 c4, line = [c1; c2; c3; c4]
    ∧ (c1 = "e"%char ∨ c1 = "E"%char) ∧ (c2 = "x"%char ∨ c2 = "X"%char)
    ∧ (c3 = "i"%char ∨ c3 = "I"%char) ∧ (c4 = "t"%char ∨ c4 = "T"%char).
Proof.
  split.
  - destruct line as [|c1 [|c2 [|c3 [|c4 [|c5 line]]]]]; try discriminate.
    unfold Py.lower. simpl. intros [= H1 H2 H3 H4].
    exists c1, c2, c3, c4. split; [done|].
    repeat split; by apply lower_char_cases.
  - intros (c1 & c2 & c3 & c4 & -> & H1 & H2 & H3 & H4).
    unfold Py.lower. simpl.
    apply lower_char_cases in H1, H2, H3, H4. by rewrite H1, H2, H3, H4.
Qed.

(** C6: for every line the loop reads, the loop body breaks, and the
    loop returns after printing the farewell without reading on, exactly
    when the line is "exit" up to letter case; every other line goes to
    [ask_question], and when its answer has been printed the loop goes on
    with the lines that follow (it ends there only if [ask_question]
    raises).  With the line as the only input the loop returns normally
    exactly when the line is "exit" up to letter case. *)
Theorem C6_exit_only (S : Services) (line : text) (stdin' : list text)
    (p : Process) :
  ((∃ p', turn S line p = (Ok Break, p'))
     ↔ Py.lower line = Py.lower (txt "exit"))
  ∧ (Py.lower line = Py.lower (txt "exit") →
     chat_loop S (line :: stdin') p
     = (Ok (), log_all [Input line; Print Goodbye] p))
  ∧ (Py.lower line ≠ Py.lower (txt "exit") →
     turn S line p
     = (response ← ask_question S line;
        print (ChatbotResponse response);; mret Continue) (log (Input line) p)
     ∧ chat_loop S (line :: stdin') p
       = match ask_question S line (log (Input line) p) with
         | (Ok response, p') =>
             chat_loop S stdin' (log (Print (ChatbotResponse response)) p')
         | (Raise e, p') => (Raise e, p')
         end)
  ∧ (fst (chat_loop S [line] p) = Ok ()
     ↔ Py.lower line = Py.lower (txt "exit")).
Proof.
  assert (∀ rest, chat_loop S (line :: rest) p
                  = match turn S line p with
                    | (Ok Break, p') => (Ok (), p')
                    | (Ok Continue, p') => chat_loop S rest p'
                    | (Raise e, p') => (Raise e, p')
                    end) as Hloop.
  { intros rest. simpl. unfold mbind at 1. unfold M_bind.
    by destruct (turn S line p) as [[[]|e] p']. }
  rewrite lower_exit. split; [|split; [|split]].
  - rewrite turn_run. split.
    + intros [p' Hp']. case_decide; [done|].
      by destruct (ask_question S line _) as [[response|e] p''].
    + intros Hexit. rewrite decide_True by done. by eexists.
  - intros Hexit. by rewrite Hloop, turn_run, decide_True.
  - intros Hother. split.
    + rewrite turn_run, decide_False by done. run_M.
      by destruct (ask_question S line _) as [[response|e] p''].
    + rewrite Hloop, turn_run, decide_False by done.
      by destruct (ask_question S line _) as [[response|e] p''].
  - rewrite Hloop, turn_run. case_decide as Hexit; [done|].
    destruct (ask_question S line _) as [[response|e] p'']; simpl; split; done.
Qed.

Example exit_any_case :
  Py.lower (txt "EXIT") = txt "exit" ∧ Py.lower (txt "Exit") = txt "exit".
Proof. split; reflexivity. Qed.

Example quit_is_a_question : Py.lower (txt "quit") ≠ txt "exit".
Proof. vm_compute. discriminate. Qed.

Example empty_line_is_a_question : Py.lower [] ≠ txt "exit".
Proof. vm_compute. discriminate. Qed.

Example padded_exit_is_a_question : Py.lower (txt " exit") ≠ txt "exit".
Proof. vm_compute. discriminate. Qed.

(** The session recorded in the notebook: two questions, "quit", which is
    answered like any question, and "exit". *)
Example recorded_session :
  let stdin := [query0; txt "how is the weather?"; txt "quit"; txt "exit"] in
  fst (chat_loop steady stdin indexed) = Ok ()
  ∧ List.filter on_terminal (trace (snd (chat_loop steady stdin indexed)))
    = [Input query0; Print (ChatbotResponse (txt "fine"));
       Input (txt "how is the weather?"); Print (ChatbotResponse (txt "fine"));
       Input (txt "quit"); Print (ChatbotResponse (txt "fine"));
       Input (txt "exit"); Print Goodbye].
Proof. split; vm_compute; reflexivity. Qed.

Lemma ask_question_failure (S : Services) (query : text) (p : Process)
    (e : exn) (calls : list event) :
  remote_failure S p query e calls →
  ask_question S query p = (Raise e, log_all calls p).
Proof.
  rewrite ask_question_run.
  intros [e' He|v e' Hv He].
  - by rewrite He.
  - by rewrite Hv, He.
Qed.

(** C9: when a remote embedding or completion call raises during a
    question turn, [ask_question] raises the same error and so does the
    loop: the calls made in the turn are the ones up to the failing call,
    each made once, nothing is printed, and no further line is read. *)
Theorem C9_errors_propagate (S : Services) (line : text) (stdin' : list text)
    (p : Process) (e : exn) (calls : list event) :
  Py.lower line ≠ txt "exit" →
  remote_failure S (log (Input line) p) line e calls →
  ask_question S line (log (Input line) p)
    = (Raise e, log_all (Input line :: calls) p)
  ∧ chat_loop S (line :: stdin') p = (Raise e, log_all (Input line :: calls) p)
  ∧ (calls = [Embed embedding_model line]
     ∨ ∃ messages, calls = [Embed embedding_model line;
                            ChatCreate (txt "gpt-4") messages]).
Proof.
  intros Hother Hfail.
  pose proof (ask_question_failure _ _ _ _ _ Hfail) as Hask.
  split; [exact Hask|]. split.
  - simpl. unfold mbind at 1. unfold M_bind.
    by rewrite turn_run, decide_False, Hask.
  - destruct Hfail; [by left|right; by eexists].
Qed.

Lemma C9_errors_propagate_witness :
  ask_question offline (txt "why?") (log (Input (txt "why?")) indexed)
    = (Raise (APIError (txt "connection")),
       log_all [Input (txt "why?"); Embed embedding_model (txt "why?")] indexed)
  ∧ chat_loop offline [txt "why?"; txt "exit"] indexed
    = (Raise (APIError (txt "connection")),
       log_all [Input (txt "why?"); Embed embedding_model (txt "why?")] indexed)
  ∧ ([Embed embedding_model (txt "why?")] = [Embed embedding_model (txt "why?")]
     ∨ ∃ messages,
         [Embed embedding_model (txt "why?")]
         = [Embed embedding_model (txt "why?"); ChatCreate (txt "gpt-4") messages]).
Proof.
  apply (C9_errors_propagate offline (txt "why?") [txt "exit"] indexed).
  - vm_compute. discriminate.
  - by apply embedding_fails.
Defined.

(** The same when it is the chat service that fails. *)
Example throttled_turn :
  chat_loop throttled [txt "why?"; txt "exit"] indexed
  = (Raise (APIError (txt "rate limit")),
     log_all [Input (txt "why?"); Embed embedding_model (txt "why?");
              ChatCreate (txt "gpt-4")
                (request_messages throttled indexed (txt "why?") [4%Z])] indexed).
Proof. vm_compute. reflexivity. Qed.

Lemma embed_documents_ok (S : Services) (docs : list Document) (p p' : Process)
    (records : list EmbeddingRecord) :
  embed_documents S docs p = (Ok records, p') →
  document <$> records = docs ∧ vector_store p' = vector_store p.
Proof.
  revert p records. induction docs as [|d docs IH]; intros p records; simpl.
  - by intros [= <- <-].
  - run_M. destruct (embed S (trace p) embedding_model (page_content d)) as [v|e];
      [|done].
    destruct (embed_documents S docs (log (Embed embedding_model (page_content d)) p))
      as [[records'|e] p''] eqn:Hrest; [|done].
    intros [= <- <-]. apply IH in Hrest as (Hd & Hs).
    by rewrite fmap_cons, Hd, Hs.
Qed.

Lemma rebuild_metadata (cs : list Document) (d : Document) :
  d ∈ rebuild cs → metadata d = ∅.
Proof. unfold rebuild. by intros (c & -> & _)%list_elem_of_fmap. Qed.

(** C10: when the chunks have been embedded and stored, the documents of
    the new records are, in order, the chunk texts with the empty
    metadata dictionary, whatever metadata the chunks carried; the store
    holding nothing else (it is empty before cell 5, and cell 9 adds to
    what cell 5 stored), every document that retrieval returns from it
    has no metadata, and in particular neither a source nor a page
    entry. *)
Theorem C10_metadata_discarded (S : Services) (p : Process) :
  Forall (λ r, metadata (document r) = ∅) (vector_store p) →
  fst (store_chunks S p) = Ok () →
  let p' := snd (store_chunks S p) in
  (∃ records, vector_store p' = vector_store p ++ records
     ∧ document <$> records
       = (λ chunk, mkDocument (page_content chunk) ∅) <$> chunks p)
  ∧ ∀ (q : vector) (k : nat) (d : Document),
      d ∈ document <$> VectorIndex.query (metric S) (vector_store p') q k →
      metadata d = ∅ ∧ metadata d !! "source" = None ∧ metadata d !! "page" = None.
Proof.
  intros Hold. unfold store_chunks, from_documents. run_M.
  set (p1 := mkProcess _ _ _ _ _ _).
  destruct (embed_documents S (rebuild (chunks p)) p1) as [[records|e] p2] eqn:Hrun;
    [|done].
  intros _. simpl.
  apply embed_documents_ok in Hrun as (Hdocs & ->). simpl.
  split; [by exists records|].
  intros q k d (r & -> & Hr%query_elem_of)%list_elem_of_fmap.
  assert (metadata (document r) = ∅) as Hr'.
  { unfold VectorIndex.add in Hr. apply elem_of_app in Hr as [Hr|Hr].
    - rewrite Forall_forall in Hold. by apply Hold.
    - apply (rebuild_metadata (chunks p)). rewrite <-Hdocs.
      by apply list_elem_of_fmap_2. }
  by rewrite Hr'.
Qed.

Lemma C10_metadata_discarded_witness :
  let p' := snd (store_chunks steady chunked) in
  (∃ records, vector_store p' = vector_store chunked ++ records
     ∧ document <$> records
       = (λ chunk, mkDocument (page_content chunk) ∅) <$> chunks chunked)
  ∧ ∀ (q : vector) (k : nat) (d : Document),
      d ∈ document <$> VectorIndex.query (metric steady) (vector_store p') q k →
      metadata d = ∅ ∧ metadata d !! "source" = None ∧ metadata d !! "page" = None.
Proof.
  apply (C10_metadata_discarded steady chunked); [constructor|reflexivity].
Defined.

(** The chunk itself still had the metadata of its page. *)
Example chunk_metadata_kept :
  metadata <$> chunks chunked
  = [{[ "source" := txt "paper.pdf"; "page" := txt "0" ]}].
Proof. vm_compute. reflexivity. Qed.

(** Cell 9 stores the chunks a second time: its listing shows the one
    chunk of [page0] twice, as the recorded output of the notebook shows
    its nearest chunk twice. *)
Example stored_twice :
  List.filter on_terminal
    (trace (snd (notebook steady [page0] [txt "exit"] (fresh ∅))))
  = [Print (Extracted 1); Print Stored;
     Print (Retrieved [page_content page0]);
     Print Stored;
     Print (Retrieved [page_content page0; page_content page0]);
     Input (txt "exit"); Print Goodbye].
Proof. vm_compute. reflexivity. Qed.

(** *** What a part of the notebook leaves untouched *)

Lemma preserves_bind {A B C : Type} (f : Process → C) (m : M A) (k : A → M B) :
  preserves f m → (∀ a, preserves f (k a)) → preserves f (m ≫= k).
Proof.
  intros Hm Hk p. unfold mbind, M_bind.
  specialize (Hm p). destruct (m p) as [[a|e] p']; simpl in *; [|done].
  by rewrite Hk.
Qed.

Ltac preserve :=
  repeat (apply preserves_bind; [|intros ?]); try (by intros ?).

Section Frames.
Variable S : Services.
Context {B : Type} (f : Process → B).
(** [f] reads neither the trace nor a notebook variable. *)
Hypothesis f_log : ∀ ev p, f (log ev p) = f p.
Hypothesis f_documents : ∀ ds p, f (snd (set_documents ds p)) = f p.
Hypothesis f_chunks : ∀ cs p, f (snd (set_chunks cs p)) = f p.
Hypothesis f_store : ∀ st p, f (snd (set_vector_store st p)) = f p.

Lemma preserves_emit ev : preserves f (emit ev).
Proof. intros p. apply f_log. Qed.

Lemma preserves_print o : preserves f (print o).
Proof. apply preserves_emit. Qed.

Lemma preserves_embed_text s : preserves f (embed_text S s).
Proof. intros p. apply f_log. Qed.

Lemma preserves_chat model messages :
  preserves f (chat_completions_create S model messages).
Proof. intros p. apply f_log. Qed.

Hint Resolve preserves_emit preserves_print preserves_embed_text
  preserves_chat : core.

Lemma preserves_embed_documents docs : preserves f (embed_documents S docs).
Proof. induction docs as [|d docs IH]; simpl; [done|]. preserve; auto. Qed.

Lemma preserves_similarity_search query k :
  preserves f (similarity_search S query k).
Proof. unfold similarity_search. preserve; auto. Qed.

Lemma preserves_ask_question query : preserves f (ask_question S query).
Proof.
  unfold ask_question. preserve; auto.
  by match goal with r : list text |- _ => destruct r end.
Qed.

Lemma preserves_turn line : preserves f (turn S line).
Proof.
  unfold turn. apply preserves_bind; [auto|intros _].
  case_decide; [preserve; auto|].
  apply preserves_bind; [apply preserves_ask_question|intros ?].
  preserve; auto.
Qed.

Lemma preserves_chat_loop stdin : preserves f (chat_loop S stdin).
Proof.
  induction stdin as [|line stdin IH]; simpl; [done|].
  apply preserves_bind; [apply preserves_turn|]. by intros [].
Qed.

Lemma preserves_store_chunks : preserves f (store_chunks S).
Proof.
  unfold store_chunks, from_documents.
  apply preserves_bind; [done|intros ?].
  apply preserves_bind; [intros ?; apply f_documents|intros _].
  apply preserves_bind; [done|intros ?].
  apply preserves_bind; [|intros ? ?; apply f_store].
  apply preserves_bind; [apply preserves_embed_documents|intros ?].
  by preserve.
Qed.

Lemma preserves_cell3 pages : preserves f (cell3 pages).
Proof.
  unfold cell3.
  apply preserves_bind; [intros ?; apply f_documents|intros _].
  apply preserves_bind; [done|intros ?].
  apply preserves_bind; [intros ?; apply f_chunks|intros _].
  apply preserves_bind; [done|intros ?]. apply preserves_emit.
Qed.

Lemma preserves_cell7 : preserves f (cell7 S).
Proof.
  unfold cell7.
  apply preserves_bind; [apply preserves_similarity_search|intros ?].
  apply preserves_emit.
Qed.

End Frames.

(** Cell 3 makes no remote call and cannot raise. *)
Lemma cell3_ok (pages : list Document) (p : Process) :
  ∃ p', cell3 pages p = (Ok (), p') ∧ environ p' = environ p.
Proof. by eexists. Qed.

Lemma cell5_environ (S : Services) (p : Process) :
  environ (snd (cell5 S p)) = <[OPENAI_API_KEY := []]> (environ p).
Proof.
  unfold cell5. rewrite bind_run. simpl.
  set (p1 := mkProcess _ _ _ _ _ _).
  change (<[OPENAI_API_KEY := []]> (environ p)) with (environ p1).
  apply (preserves_bind environ); [|intros ?; by apply preserves_print].
  by apply preserves_store_chunks.
Qed.

Lemma cell9_preserves_environ (S : Services) (stdin : list text) :
  preserves environ (cell9 S stdin).
Proof.
  unfold cell9.
  apply preserves_bind; [done|intros key].
  apply preserves_bind; [done|intros _].
  apply preserves_bind; [by apply preserves_store_chunks|intros _].
  apply preserves_bind; [by apply preserves_print|intros _].
  apply preserves_bind; [by apply preserves_similarity_search|intros ?].
  apply preserves_bind; [by apply preserves_print|intros _].
  by apply preserves_chat_loop.
Qed.

(** Once cell 9 has read the variable, nothing changes the key. *)
Lemma cell9_openai_api_key (S : Services) (stdin : list text) (p : Process) :
  openai_api_key (snd (cell9 S stdin p)) = environ p !! OPENAI_API_KEY.
Proof.
  unfold cell9. rewrite bind_run. unfold os_getenv, get. rewrite bind_run.
  unfold set_openai_api_key.
  set (p1 := mkProcess _ _ _ _ _ _).
  change (environ p !! OPENAI_API_KEY) with (openai_api_key p1).
  apply (preserves_bind openai_api_key); [by apply preserves_store_chunks|intros _].
  apply preserves_bind; [by apply preserves_print|intros _].
  apply preserves_bind; [by apply preserves_similarity_search|intros ?].
  apply preserves_bind; [by apply preserves_print|intros _].
  by apply preserves_chat_loop.
Qed.

(** C8, as stated, fails: started with the caller's key in the
    environment, the notebook ends with another value in the variable,
    and the key it read back is not the caller's. *)
Lemma C8_counterexample :
  let p0 := fresh caller_environ in
  let p' := snd (notebook steady [page0] [txt "exit"] p0) in
  environ p0 !! OPENAI_API_KEY = Some (txt "sk-caller")
  ∧ environ p' !! OPENAI_API_KEY ≠ Some (txt "sk-caller")
  ∧ openai_api_key p' ≠ Some (txt "sk-caller").
Proof. vm_compute. repeat split; discriminate. Qed.

(** C8, amended: whatever the caller put in the environment, the notebook
    assigns the literal of its own source, the empty string, to the
    credential variable and changes no other variable; when the run is
    complete, the key that cell 9 read back with [os.getenv] is that
    empty string. *)
Theorem C8_key_assigned (S : Services) (pages : list Document)
    (stdin : list text) (p0 : Process) :
  let run := notebook S pages stdin p0 in
  environ (snd run) = <[OPENAI_API_KEY := []]> (environ p0)
  ∧ (fst run = Ok () → openai_api_key (snd run) = Some []).
Proof.
  cbv zeta. unfold notebook. rewrite bind_run.
  destruct (cell3_ok pages p0) as (p1 & -> & <-).
  pose proof (cell5_environ S p1) as H5. rewrite bind_run.
  destruct (cell5 S p1) as [[[]|e] p2]; simpl in H5; [|done].
  pose proof (preserves_cell7 S environ ltac:(done) p2) as H7. rewrite bind_run.
  destruct (cell7 S p2) as [[[]|e] p3]; simpl in H7;
    [|simpl; by rewrite H7, H5].
  rewrite cell9_preserves_environ, cell9_openai_api_key, H7, H5.
  split; [done|]. intros _. apply lookup_insert_eq.
Qed.

(** A complete run with the caller's key exported: the other variable is
    as the caller left it, the key is the empty string. *)
Example complete_run :
  let p' := snd (notebook steady [page0] [txt "exit"] (fresh caller_environ)) in
  fst (notebook steady [page0] [txt "exit"] (fresh caller_environ)) = Ok ()
  ∧ environ p' !! "HOME" = Some (txt "/home/user")
  ∧ environ p' !! OPENAI_API_KEY = Some []
  ∧ openai_api_key p' = Some [].
Proof. vm_compute. repeat split; reflexivity. Qed.

(** ** Further facts about the notebook's own code *)

Lemma log_all_app (evs1 evs2 : list event) (p : Process) :
  log_all (evs1 ++ evs2) p = log_all evs2 (log_all evs1 p).
Proof. unfold log_all. apply foldl_app. Qed.

(** Logging touches the trace only. *)
Lemma log_all_variables (evs : list event) (p : Process) :
  environ (log_all evs p) = environ p
  ∧ openai_api_key (log_all evs p) = openai_api_key p
  ∧ documents (log_all evs p) = documents p
  ∧ chunks (log_all evs p) = chunks p
  ∧ vector_store (log_all evs p) = vector_store p.
Proof.
  revert p. induction evs as [|ev evs IH]; intros p; [done|].
  change (log_all (ev :: evs) p) with (log_all evs (log ev p)).
  destruct (IH (log ev p)) as (-> & -> & -> & -> & ->). done.
Qed.

(** The state [ask_question] leaves: the state it started in, with one or
    two remote calls logged. *)
Lemma ask_question_state (S : Services) (query : text) (p : Process) :
  ∃ calls, snd (ask_question S query p) = log_all calls p
    ∧ (calls = [Embed embedding_model query]
       ∨ ∃ messages, calls = [Embed embedding_model query;
                              ChatCreate (txt "gpt-4") messages]).
Proof.
  rewrite ask_question_run.
  destruct (embed S (trace p) embedding_model query) as [v|e].
  - eexists. split; [|right; by eexists].
    cbv zeta. by destruct (chat S _ _ _) as [[|c cs]|e].
  - eexists. split; [|by left]. done.
Qed.

(** X1: [ask_question] assigns no notebook variable and no environment
    variable, prints nothing and reads nothing, whether it returns or
    raises: all it leaves behind is one or two remote calls. *)
Theorem X1_ask_question_frame (S : Services) (query : text) (p : Process) :
  let p' := snd (ask_question S query p) in
  environ p' = environ p
  ∧ openai_api_key p' = openai_api_key p
  ∧ documents p' = documents p
  ∧ chunks p' = chunks p
  ∧ vector_store p' = vector_store p
  ∧ printed (trace p') = printed (trace p)
  ∧ inputs (trace p') = inputs (trace p)
  ∧ embedded (trace p') = embedded (trace p) ++ [query]
  ∧ length (chat_requests (trace p')) ≤ 1 + length (chat_requests (trace p)).
Proof.
  cbv zeta. destruct (ask_question_state S query p) as (calls & -> & Hcalls).
  destruct (log_all_variables calls p) as (-> & -> & -> & -> & ->).
  rewrite log_all_trace. unfold printed, inputs, embedded, chat_requests.
  rewrite !omap_app, !length_app.
  destruct Hcalls as [->|[messages ->]]; simpl;
    rewrite ?app_nil_r; repeat split; try done; lia.
Qed.

(** X2: when both remote calls succeed, [ask_question] returns the content
    of the first choice and ignores the others; an answer without a
    choice raises IndexError. *)
Theorem X2_first_choice (S : Services) (query : text) (p : Process)
    (v : vector) (choices : list text) :
  embed S (trace p) embedding_model query = Ok v →
  chat S (trace p ++ [Embed embedding_model query]) (txt "gpt-4")
    (request_messages S p query v) = Ok choices →
  fst (ask_question S query p)
  = match choices with
    | c :: _ => Ok c
    | [] => Raise IndexError
    end.
Proof.
  intros Hv Hc. rewrite ask_question_run, Hv. cbv zeta. rewrite Hc.
  by destruct choices.
Qed.

Lemma X2_first_choice_witness :
  fst (ask_question speechless (txt "why?") indexed) = Raise IndexError.
Proof.
  exact (X2_first_choice speechless (txt "why?") indexed [4%Z] [] eq_refl eq_refl).
Defined.

(** X3: with an empty store [ask_question] does not stop at the empty
    retrieval: the context is the empty string and the chat request is
    sent with it. *)
Theorem X3_empty_retrieval (S : Services) (query : text) (p : Process)
    (v : vector) :
  vector_store p = [] →
  embed S (trace p) embedding_model query = Ok v →
  trace (snd (ask_question S query p))
  = trace p ++ [Embed embedding_model query;
                ChatCreate (txt "gpt-4")
                  [mkMessage (txt "system") system_content;
                   mkMessage (txt "user") (prompt_of [] query)]].
Proof.
  intros Hstore Hv. rewrite ask_question_run, Hv. cbv zeta.
  assert (request_messages S p query v
          = [mkMessage (txt "system") system_content;
             mkMessage (txt "user") (prompt_of [] query)]) as ->.
  { unfold request_messages. by rewrite Hstore. }
  destruct (chat S _ _ _) as [[|c cs]|e]; cbn [snd]; by rewrite log_all_trace.
Qed.

Lemma X3_empty_retrieval_witness :
  trace (snd (ask_question steady (txt "why?") (fresh ∅)))
  = [Embed embedding_model (txt "why?");
     ChatCreate (txt "gpt-4")
       [mkMessage (txt "system") system_content;
        mkMessage (txt "user") (prompt_of [] (txt "why?"))]].
Proof.
  exact (X3_empty_retrieval steady (txt "why?") (fresh ∅) [4%Z] eq_refl eq_refl).
Defined.

(** X4: the template does not delimit its two holes: a context that
    contains the text the template puts before the question gives the
    same prompt as the shorter context with the rest moved into the
    question, so the prompt does not tell retrieved text from the
    question. *)
Theorem X4_prompt_holes_not_delimited (a b c : text) :
  prompt_of (a ++ question_header ++ b) c
  = prompt_of a (b ++ question_header ++ c).
Proof.
  unfold prompt_of, question_header. by rewrite <-!app_assoc.
Qed.

(** What a turn can do: break on "exit", or go through [ask_question]. *)
Lemma turn_cases (S : Services) (line : text) (p : Process) :
  (Py.lower line = txt "exit"
   ∧ turn S line p = (Ok Break, log_all [Input line; Print Goodbye] p))
  ∨ (Py.lower line ≠ txt "exit"
     ∧ ∃ calls, inputs calls = []
       ∧ ((∃ e, turn S line p = (Raise e, log_all (Input line :: calls) p))
          ∨ (∃ response,
               turn S line p
               = (Ok Continue,
                  log_all (Input line :: calls ++ [Print (ChatbotResponse response)]) p)))).
Proof.
  rewrite turn_run. case_decide as Hexit; [by left|right]. split; [done|].
  destruct (ask_question_state S line (log (Input line) p)) as (calls & Hstate & Hcalls).
  exists calls. split; [by destruct Hcalls as [->|[? ->]]|].
  destruct (ask_question S line (log (Input line) p)) as [[response|e] p1];
    simpl in Hstate; subst p1.
  - right. exists response. f_equal.
    change (Input line :: calls ++ [Print (ChatbotResponse response)])
      with ([Input line] ++ calls ++ [Print (ChatbotResponse response)]).
    by rewrite !log_all_app.
  - left. by exists e.
Qed.

(** X5: the loop returns normally only by reading an exit line: the input
    then splits into lines that are not "exit" in any letter case, all of
    them read, the exit line, after which the farewell is the last thing
    logged, and the lines after it, which are never read. *)
Theorem X5_loop_returns_on_exit (S : Services) (stdin : list text)
    (p p' : Process) :
  chat_loop S stdin p = (Ok (), p') →
  ∃ before line after evs,
    stdin = before ++ line :: after
    ∧ Py.lower line = txt "exit"
    ∧ Forall (λ l, Py.lower l ≠ txt "exit") before
    ∧ p' = log_all (evs ++ [Input line; Print Goodbye]) p
    ∧ inputs evs = before.
Proof.
  revert p. induction stdin as [|line stdin IH]; intros p; simpl; [done|].
  rewrite bind_run.
  destruct (turn_cases S line p) as [[Hexit ->]|(Hother & calls & Hin & [[e ->]|[r ->]])].
  - intros [= <-]. by exists [], line, stdin, [].
  - done.
  - intros (before & l & after & evs & -> & Hl & Hbefore & -> & Hevs)%IH.
    exists (line :: before), l, after,
      ((Input line :: calls ++ [Print (ChatbotResponse r)]) ++ evs).
    split; [done|]. split; [done|]. split; [by constructor|].
    split; [by rewrite <-log_all_app, app_assoc|].
    unfold inputs in *. rewrite omap_app. simpl. rewrite omap_app, Hin, Hevs. done.
Qed.

Lemma X5_loop_returns_on_exit_witness :
  ∃ before line after evs,
    [txt "quit"; txt "Exit"; txt "late"] = before ++ line :: after
    ∧ Py.lower line = txt "exit"
    ∧ Forall (λ l, Py.lower l ≠ txt "exit") before
    ∧ snd (chat_loop steady [txt "quit"; txt "Exit"; txt "late"] indexed)
      = log_all (evs ++ [Input line; Print Goodbye]) indexed
    ∧ inputs evs = before.
Proof.
  apply (X5_loop_returns_on_exit steady [txt "quit"; txt "Exit"; txt "late"] indexed).
  vm_compute. reflexivity.
Defined.

(** A turn with services that answer: the question is embedded, the chat
    model is asked once and its first choice is printed. *)
Lemma turn_reliable (S : Services) (line : text) (p : Process) :
  reliable S → Py.lower line ≠ txt "exit" →
  ∃ messages response,
    turn S line p
    = (Ok Continue,
       log_all [Input line; Embed embedding_model line;
                ChatCreate (txt "gpt-4") messages;
                Print (ChatbotResponse response)] p).
Proof.
  intros [Hembed Hchat] Hother.
  rewrite turn_run, decide_False, ask_question_run by done.
  destruct (Hembed (trace (log (Input line) p)) embedding_model line) as [v ->].
  cbv zeta.
  destruct (Hchat (trace (log (Input line) p) ++ [Embed embedding_model line])
              (txt "gpt-4") (request_messages S (log (Input line) p) line v))
    as (c & cs & ->).
  by eexists _, _.
Qed.

(** X6: with services that answer every call, the loop answers every line
    before the first exit line, once each and in order (one embedding of
    the line, one chat request, one printed answer), then prints the
    farewell and returns; the lines after the exit line are not read. *)
Theorem X6_loop_answers_until_exit (S : Services) (questions after : list text)
    (line : text) (p : Process) :
  reliable S →
  Forall (λ l, Py.lower l ≠ txt "exit") questions →
  Py.lower line = txt "exit" →
  ∃ evs answers,
    chat_loop S (questions ++ line :: after) p = (Ok (), log_all evs p)
    ∧ inputs evs = questions ++ [line]
    ∧ embedded evs = questions
    ∧ length (chat_requests evs) = length questions
    ∧ printed evs = (ChatbotResponse <$> answers) ++ [Goodbye]
    ∧ length answers = length questions.
Proof.
  intros Hrel Hquestions Hexit. revert p.
  induction Hquestions as [|q questions Hq _ IH]; intros p; simpl.
  - exists [Input line; Print Goodbye], []. rewrite bind_run, turn_run.
    by rewrite decide_True.
  - destruct (turn_reliable S q p Hrel Hq) as (messages & response & Hturn).
    rewrite bind_run, Hturn.
    destruct (IH (log_all [Input q; Embed embedding_model q;
                           ChatCreate (txt "gpt-4") messages;
                           Print (ChatbotResponse response)] p))
      as (evs & answers & -> & Hin & Hemb & Hchat & Hpr & Hlen).
    exists ([Input q; Embed embedding_model q; ChatCreate (txt "gpt-4") messages;
             Print (ChatbotResponse response)] ++ evs), (response :: answers).
    rewrite log_all_app. split; [done|].
    unfold inputs, embedded, chat_requests, printed in *.
    rewrite !omap_app, Hin, Hemb, Hpr, length_app, Hchat. simpl.
    by rewrite Hlen.
Qed.

Lemma X6_loop_answers_until_exit_witness :
  ∃ evs answers,
    chat_loop steady ([txt "why?"; txt "quit"] ++ txt "EXIT" :: [txt "late"]) indexed
      = (Ok (), log_all evs indexed)
    ∧ inputs evs = [txt "why?"; txt "quit"] ++ [txt "EXIT"]
    ∧ embedded evs = [txt "why?"; txt "quit"]
    ∧ length (chat_requests evs) = length [txt "why?"; txt "quit"]
    ∧ printed evs = (ChatbotResponse <$> answers) ++ [Goodbye]
    ∧ length answers = length [txt "why?"; txt "quit"].
Proof.
  apply (X6_loop_answers_until_exit steady [txt "why?"; txt "quit"] [txt "late"]
           (txt "EXIT") indexed).
  - split; intros; repeat eexists.
  - repeat constructor; vm_compute; discriminate.
  - reflexivity.
Defined.

(** X7: the loop body breaks on exactly sixteen lines, the four letters
    of "exit" each in upper or lower case; the line is not trimmed, so a
    line of any other length, padded or empty, is a question. *)
Theorem X7_sixteen_spellings (S : Services) (line : text) (p : Process) :
  ((∃ p', turn S line p = (Ok Break, p')) ↔
   ∃ c1 c2 c3 c4, line = [c1; c2; c3; c4]
     ∧ (c1 = "e"%char ∨ c1 = "E"%char) ∧ (c2 = "x"%char ∨ c2 = "X"%char)
     ∧ (c3 = "i"%char ∨ c3 = "I"%char) ∧ (c4 = "t"%char ∨ c4 = "T"%char))
  ∧ (length line ≠ 4 → ∀ p', turn S line p ≠ (Ok Break, p')).
Proof.
  assert ((∃ p', turn S line p = (Ok Break, p')) ↔ Py.lower line = txt "exit")
    as Hbreak.
  { destruct (turn_cases S line p)
      as [[Hexit ->]|(Hother & calls & _ & [[e ->]|[r ->]])].
    - split; [done|]. by eexists.
    - split; [by intros [? ?]|done].
    - split; [by intros [? ?]|done]. }
  split; [by rewrite Hbreak, lower_exit_iff|].
  intros Hlen p' Hturn.
  assert (Py.lower line = txt "exit") as Hexit by (apply Hbreak; by eexists).
  apply (f_equal length) in Hexit. unfold Py.lower in Hexit.
  rewrite length_fmap in Hexit. by simpl in Hexit.
Qed.

(** The state a turn leaves: the state it started in with events logged,
    of which the line is the only one typed. *)
Lemma turn_state (S : Services) (line : text) (p : Process) :
  ∃ evs, snd (turn S line p) = log_all evs p ∧ inputs evs = [line].
Proof.
  destruct (turn_cases S line p)
    as [[Hexit ->]|(Hother & calls & Hin & [[e ->]|[r ->]])].
  - by eexists.
  - eexists. split; [done|].
    change (inputs (Input line :: calls)) with (line :: inputs calls).
    by rewrite Hin.
  - eexists. split; [done|].
    change (inputs (Input line :: calls ++ [Print (ChatbotResponse r)]))
      with (line :: inputs (calls ++ [Print (ChatbotResponse r)])).
    unfold inputs in *. by rewrite omap_app, Hin.
Qed.

(** X8: however the loop ends, by the farewell, by an error or at the end
    of the input, it leaves [os.environ], [openai.api_key], [documents],
    [chunks] and [vector_store] as they were and only adds events to the
    trace; the lines it has read are an initial part of the input, in
    order and without gaps.  (The loop assigns [user_query] and
    [response] at each turn; these two are passed as values here and are
    not part of the state.) *)
Theorem X8_loop_frame (S : Services) (stdin : list text) (p : Process) :
  ∃ evs,
    snd (chat_loop S stdin p) = log_all evs p
    ∧ inputs evs `prefix_of` stdin
    ∧ environ (snd (chat_loop S stdin p)) = environ p
    ∧ openai_api_key (snd (chat_loop S stdin p)) = openai_api_key p
    ∧ documents (snd (chat_loop S stdin p)) = documents p
    ∧ chunks (snd (chat_loop S stdin p)) = chunks p
    ∧ vector_store (snd (chat_loop S stdin p)) = vector_store p.
Proof.
  assert (∃ evs, snd (chat_loop S stdin p) = log_all evs p
                 ∧ inputs evs `prefix_of` stdin) as (evs & Hevs & Hpre).
  { revert p. induction stdin as [|line stdin IH]; intros p; simpl.
    - exists []. split; [done|]. apply prefix_nil.
    - rewrite bind_run.
      destruct (turn_state S line p) as (evs1 & H1 & Hin1).
      destruct (turn S line p) as [[[]|e] p1]; simpl in H1; subst p1.
      + exists evs1. split; [done|]. rewrite Hin1. by apply prefix_cons, prefix_nil.
      + destruct (IH (log_all evs1 p)) as (evs2 & -> & Hpre).
        exists (evs1 ++ evs2). split; [by rewrite log_all_app|].
        unfold inputs in *. rewrite omap_app, Hin1. by apply prefix_cons.
      + exists evs1. split; [done|]. rewrite Hin1. by apply prefix_cons, prefix_nil. }
  exists evs. rewrite Hevs.
  destruct (log_all_variables evs p) as (-> & -> & -> & -> & ->). done.
Qed.

(** X9: the rebuilt documents depend on the texts of the chunks and on
    nothing else: two chunk lists give the same documents exactly when
    they have the same texts in the same order; rebuilding keeps the
    number and the texts, and rebuilding again changes nothing. *)
Theorem X9_rebuild_keeps_texts_only (cs cs' : list Document) :
  (rebuild cs = rebuild cs' ↔ page_content <$> cs = page_content <$> cs')
  ∧ page_content <$> rebuild cs = page_content <$> cs
  ∧ length (rebuild cs) = length cs
  ∧ rebuild (rebuild cs) = rebuild cs.
Proof.
  assert (∀ l, page_content <$> rebuild l = page_content <$> l) as Htexts.
  { intros l. unfold rebuild. rewrite <-list_fmap_compose. done. }
  assert (∀ l, rebuild l = Document_of_text <$> (page_content <$> l)) as Hfactor.
  { intros l. unfold rebuild. by rewrite <-list_fmap_compose. }
  repeat split.
  - intros Heq. by rewrite <-(Htexts cs), <-(Htexts cs'), Heq.
  - intros Heq. by rewrite !Hfactor, Heq.
  - apply Htexts.
  - unfold rebuild. apply length_fmap.
  - by rewrite (Hfactor (rebuild cs)), Htexts, <-Hfactor.
Qed.

(** Storing the chunks replaces [documents] by the rebuilt documents and
    leaves [chunks] alone, whether the embedding succeeds or not. *)
Lemma store_chunks_variables (S : Services) (p : Process) :
  documents (snd (store_chunks S p)) = rebuild (chunks p)
  ∧ chunks (snd (store_chunks S p)) = chunks p.
Proof.
  unfold store_chunks, from_documents. run_M.
  set (p1 := mkProcess _ _ _ _ _ _).
  assert (preserves (λ q, (documents q, chunks q))
            (embed_documents S (rebuild (chunks p)))) as Hkeep
    by (by apply preserves_embed_documents).
  specialize (Hkeep p1).
  destruct (embed_documents S (rebuild (chunks p)) p1) as [[records|e] p2];
    simpl in *; by injection Hkeep as -> ->.
Qed.

Lemma cell9_variables (S : Services) (stdin : list text) (p : Process) :
  documents (snd (cell9 S stdin p)) = rebuild (chunks p)
  ∧ chunks (snd (cell9 S stdin p)) = chunks p.
Proof.
  unfold cell9. rewrite bind_run. unfold os_getenv, get. rewrite bind_run.
  unfold set_openai_api_key. set (p1 := mkProcess _ _ _ _ _ _).
  rewrite bind_run.
  destruct (store_chunks_variables S p1) as [Hd Hc].
  destruct (store_chunks S p1) as [[[]|e] p2]; simpl in Hd, Hc; [|done].
  assert (preserves (λ q, (documents q, chunks q))
            (print Stored ≫= λ _ : (),
             similarity_search S query0 3 ≫= λ retrieved_docs,
             print (Retrieved (page_content <$> retrieved_docs)) ≫= λ _ : (),
             chat_loop S stdin)) as Hkeep.
  { apply preserves_bind; [by apply preserves_print|intros _].
    apply preserves_bind; [by apply preserves_similarity_search|intros ?].
    apply preserves_bind; [by apply preserves_print|intros _].
    by apply preserves_chat_loop. }
  specialize (Hkeep p2). simpl in Hkeep. injection Hkeep as -> ->. done.
Qed.

Lemma cell5_variables (S : Services) (p : Process) :
  documents (snd (cell5 S p)) = rebuild (chunks p)
  ∧ chunks (snd (cell5 S p)) = chunks p.
Proof.
  unfold cell5. rewrite bind_run. unfold set_environ.
  set (p1 := mkProcess _ _ _ _ _ _). rewrite bind_run.
  destruct (store_chunks_variables S p1) as [Hd Hc].
  by destruct (store_chunks S p1) as [[[]|e] p2].
Qed.

(** X10: whatever the services do and wherever the run stops, after the
    notebook [chunks] holds the chunks that cell 3 made of the loader's
    pages, no later cell assigns it, and [documents] no longer holds the
    pages but the documents rebuilt from those chunks. *)
Theorem X10_chunks_made_once (S : Services) (pages : list Document)
    (stdin : list text) (p0 : Process) :
  let p' := snd (notebook S pages stdin p0) in
  chunks p' = Chunker.split_documents text_splitter pages
  ∧ documents p' = rebuild (chunks p').
Proof.
  cbv zeta. unfold notebook. rewrite bind_run.
  assert (∃ p1, cell3 pages p0 = (Ok (), p1)
                ∧ chunks p1 = Chunker.split_documents text_splitter pages)
    as (p1 & -> & <-) by (by eexists).
  rewrite bind_run.
  destruct (cell5_variables S p1) as [Hd Hc].
  destruct (cell5 S p1) as [[[]|e] p3]; simpl in Hd, Hc;
    [|simpl; by rewrite Hc, Hd].
  rewrite bind_run.
  assert (preserves (λ q, (documents q, chunks q)) (cell7 S)) as H7
    by (by apply preserves_cell7).
  specialize (H7 p3).
  destruct (cell7 S p3) as [[[]|e] p4]; simpl in H7;
    injection H7 as Hd4 Hc4; [|simpl; by rewrite Hc4, Hd4, Hc, Hd].
  destruct (cell9_variables S stdin p4) as [-> ->].
  by rewrite Hc4, Hc.
Qed.

(** X11: when embedding the chunks raises, the assignment to
    [vector_store] is not reached: the store is what it was, while
    [documents] has already been replaced by the rebuilt documents. *)
Theorem X11_failed_store_keeps_index (S : Services) (p : Process) (e : exn) :
  fst (store_chunks S p) = Raise e →
  vector_store (snd (store_chunks S p)) = vector_store p
  ∧ documents (snd (store_chunks S p)) = rebuild (chunks p).
Proof.
  intros Hfail. split; [|apply store_chunks_variables].
  revert Hfail. unfold store_chunks, from_documents. run_M.
  set (p1 := mkProcess _ _ _ _ _ _).
  assert (preserves vector_store (embed_documents S (rebuild (chunks p)))) as Hkeep
    by (by apply preserves_embed_documents).
  specialize (Hkeep p1).
  by destruct (embed_documents S (rebuild (chunks p)) p1) as [[records|e'] p2].
Qed.

Lemma X11_failed_store_keeps_index_witness :
  vector_store (snd (store_chunks offline chunked)) = []
  ∧ documents (snd (store_chunks offline chunked)) = rebuild (chunks chunked).
Proof.
  apply (X11_failed_store_keeps_index offline chunked
           (APIError (txt "connection"))).
  reflexivity.
Defined.

(** X12: the key that cell 9 keeps is the value the environment variable
    has when the cell starts, and None when the variable is not set:
    [os.getenv] raises nothing for a missing variable, and nothing later
    in the cell assigns the key. *)
Theorem X12_key_is_getenv (S : Services) (stdin : list text) (p : Process) :
  openai_api_key (snd (cell9 S stdin p)) = environ p !! OPENAI_API_KEY
  ∧ (OPENAI_API_KEY ∉ dom (environ p) →
     openai_api_key (snd (cell9 S stdin p)) = None).
Proof.
  split; [apply cell9_openai_api_key|].
  intros Hmissing. rewrite cell9_openai_api_key.
  by apply not_elem_of_dom.
Qed.
